(** * navi-trip-planner: the itinerary map, the weather widget and the
      itinerary hook, embedded from the TypeScript sources

    - [src/components/ItineraryMap.tsx]: coordinate table, location
      resolution, marker colours, life cycle of the Leaflet instance;
    - [src/components/Weather.tsx]: icon selection and the fetch effect;
    - [src/hooks/useItinerary.ts]: the CRUD operations and the PDF export.

    Conventions of the embedding.
    - A JavaScript string is a sequence of UTF-16 code units.  The
      development covers the code units below 256, which is what Rocq's
      [ascii] holds; every key and literal of the sources is in that range.
    - A JavaScript number is modelled by an exact rational ([Q]) where the
      source computes with fractions, and by [Z] where the data is an
      integer (day numbers, condition codes).  Rounding of binary floating
      point is not modelled.
    - [Math.random] is a sequence of draws; the state threaded through the
      code is the index of the next draw. *)

From Stdlib Require Import ZArith QArith Qround Lqa Lia.
From Stdlib Require Import Bool List String Ascii.
From Equations Require Import Equations.
Import ListNotations.

Set Implicit Arguments.
Local Open Scope string_scope.

(** ** JavaScript strings *)

Module JsString.

Definition codeUnit (c : ascii) : N := N_of_ascii c.

(** [String.prototype.toLowerCase] on one code unit below 256: the
    letters A-Z, and the Latin-1 capitals U+00C0..U+00DE except the
    multiplication sign U+00D7, move up by 32. *)
Definition lowerUnit (c : ascii) : ascii :=
  let n := codeUnit c in
  if ((65 <=? n) && (n <=? 90))%N
     || ((192 <=? n) && (n <=? 222) && negb (n =? 215))%N
  then ascii_of_N (n + 32)
  else c.

Fixpoint toLowerCase (s : string) : string :=
  match s with
  | EmptyString => EmptyString
  | String c s' => String (lowerUnit c) (toLowerCase s')
  end.

(** [String.prototype.toUpperCase] on one code unit, for the ASCII
    letters (the only ones the weather descriptions use). *)
Definition upperUnit (c : ascii) : ascii :=
  let n := codeUnit c in
  if ((97 <=? n) && (n <=? 122))%N then ascii_of_N (n - 32) else c.

(** [s.includes(needle)]: [needle] occurs in [s] at some position. *)
Fixpoint includes (s needle : string) : bool :=
  prefix needle s
  || match s with
     | EmptyString => false
     | String _ s' => includes s' needle
     end.

(** Truthiness of a string: only the empty string is falsy. *)
Definition truthy (s : string) : bool :=
  match s with EmptyString => false | _ => true end.

(** White space of ECMAScript among the code units below 256: TAB, LF,
    VT, FF, CR, SPACE and NBSP. *)
Definition isWhiteSpace (c : ascii) : bool :=
  let n := codeUnit c in
  (((9 <=? n) && (n <=? 13)) || (n =? 32) || (n =? 160))%N.

Fixpoint allWhiteSpace (s : string) : bool :=
  match s with
  | EmptyString => true
  | String c s' => isWhiteSpace c && allWhiteSpace s'
  end.

(** Two white-space characters in a row somewhere in the string. *)
Fixpoint adjacentWhiteSpace (s : string) : bool :=
  match s with
  | String a (String b _ as s') =>
      (isWhiteSpace a && isWhiteSpace b) || adjacentWhiteSpace s'
  | _ => false
  end.

(** The characters of a string, as a set test. *)
Fixpoint occurs (c : ascii) (s : string) : bool :=
  match s with
  | EmptyString => false
  | String a s' => Ascii.eqb a c || occurs c s'
  end.

End JsString.
Import JsString.

(** ** ItineraryMap.tsx *)

Module ItineraryMap.

Record ItineraryActivity := {
  time : string;
  title : string;
  location : string;
  description : string;
  image : option string;
  category : string
}.

Record ItineraryDay := {
  day : Z;
  activities : list ItineraryActivity
}.

(** The object literal [locationCoordinates]: its own properties in
    insertion order, each a pair [longitude, latitude]. *)
Definition locationCoordinates : list (string * (Q * Q)) :=
  [ ("Vashi",                (730071 # 10000, 190754 # 10000));
    ("Belapur",              (730358 # 10000, 190235 # 10000));
    ("Kharghar",             (730785 # 10000, 190477 # 10000));
    ("Nerul",                (730157 # 10000, 190377 # 10000));
    ("Panvel",               (731088 # 10000, 189894 # 10000));
    ("Airoli",               (729985 # 10000, 191557 # 10000));
    ("Ghansoli",             (730085 # 10000, 191162 # 10000));
    ("Kopar Khairane",       (730071 # 10000, 191050 # 10000));
    ("Sanpada",              (730119 # 10000, 190506 # 10000));
    ("Turbhe",               (730224 # 10000, 190897 # 10000));
    ("Seawoods",             (730185 # 10000, 190142 # 10000));
    ("DY Patil Stadium",     (730282 # 10000, 190446 # 10000));
    ("Central Park",         (730169 # 10000, 190343 # 10000));
    ("Inorbit Mall",         (730169 # 10000, 190343 # 10000));
    ("Wonder Park",          (730074 # 10000, 190137 # 10000));
    ("Mini Seashore",        (730215 # 10000, 190240 # 10000));
    ("Akshar Dhaam",         (729962 # 10000, 191030 # 10000));
    ("Wonders Park",         (730074 # 10000, 190137 # 10000));
    ("APMC Market",          (730166 # 10000, 190680 # 10000));
    ("Parsik Hill",          (730299 # 10000, 190303 # 10000));
    ("Palm Beach Road",      (730222 # 10000, 190037 # 10000));
    ("Jewel of Navi Mumbai", (730173 # 10000, 190340 # 10000));
    ("Sagar Vihar",          (730083 # 10000, 190633 # 10000));
    ("Golf Course",          (730081 # 10000, 190157 # 10000));
    ("Nerul Balaji Temple",  (730206 # 10000, 190377 # 10000));
    ("Flamingo Sanctuary",   (730165 # 10000, 190380 # 10000));
    ("Science Centre",       (730174 # 10000, 190390 # 10000));
    ("Raghuleela Mall",      (730077 # 10000, 190720 # 10000));
    ("Belapur Fort",         (730358 # 10000, 190235 # 10000)) ].

(** An object literal inherits from [Object.prototype]; these are the
    names a property read finds there when the object has no own
    property of that name.  Each is a function, or the prototype object
    itself for [__proto__]: truthy, and without elements 0 and 1. *)
Definition objectPrototypeNames : list string :=
  [ "constructor"; "toString"; "toLocaleString"; "valueOf";
    "hasOwnProperty"; "isPrototypeOf"; "propertyIsEnumerable";
    "__proto__"; "__defineGetter__"; "__defineSetter__";
    "__lookupGetter__"; "__lookupSetter__" ].

(** What the variable [coordinates] can hold at run time. *)
Inductive Coordinates :=
| Pair (lon lat : Q)
| Inherited (name : string).

(** [Object.keys(o)]: own enumerable names, insertion order. *)
Definition keys (o : list (string * (Q * Q))) : list string :=
  map fst o.

Fixpoint ownProperty (o : list (string * (Q * Q))) (name : string)
  : option (Q * Q) :=
  match o with
  | [] => None
  | (k, v) :: o' => if String.eqb k name then Some v else ownProperty o' name
  end.

(** The property read [o[name]]: own property first, then the prototype;
    [None] is [undefined]. *)
Definition getProperty (o : list (string * (Q * Q))) (name : string)
  : option Coordinates :=
  match ownProperty o name with
  | Some (lon, lat) => Some (Pair lon lat)
  | None =>
      if existsb (String.eqb name) objectPrototypeNames
      then Some (Inherited name)
      else None
  end.

(** The predicate handed to [Array.prototype.find]. *)
Definition partialMatch (location key : string) : bool :=
  includes (toLowerCase location) (toLowerCase key)
  || includes (toLowerCase key) (toLowerCase location).

Definition defaultCenter : Q * Q := (730169 # 10000, 190330 # 10000).

Section Random.

(** [random n] is the value of the n-th call of [Math.random]. *)
Variable random : nat -> Q.

(** [randomOffset = () => (Math.random() - 0.5) * 0.02]. *)
Definition randomOffset (n : nat) : Q * nat :=
  ((random n - (1 # 2)) * (2 # 100), S n).

(** The last [else] branch (lines 196-198): the draw for the
    longitude comes first. *)
Definition fallbackCoordinates (n : nat) : option Coordinates * nat :=
  let '(dx, n1) := randomOffset n in
  let '(dy, n2) := randomOffset n1 in
  (Some (Pair (fst defaultCenter + dx) (snd defaultCenter + dy)), n2).

(** The body of the inner [forEach] up to the assignment of
    [coordinates] (lines 181-200).  The first component is the value
    of [coordinates], the second the index of the next draw. *)
Definition resolveCoordinates (loc : string) (n : nat)
  : option Coordinates * nat :=
  match getProperty locationCoordinates loc with
  | Some v => (Some v, n)
  | None =>
      match find (partialMatch loc) (keys locationCoordinates) with
      | Some locationKey =>
          if truthy locationKey
          then (getProperty locationCoordinates locationKey, n)
          else fallbackCoordinates n
      | None => fallbackCoordinates n
      end
  end.

(** *** Marker construction (lines 172-236) *)

Definition dayColors : list string :=
  [ "#3B82F6"; "#10B981"; "#F59E0B"; "#EF4444"; "#8B5CF6"; "#EC4899";
    "#06B6D4" ].

(** The array read [a[i]] at an integer [i]: [undefined] ([None])
    outside [0 .. length - 1]. *)
Definition arrayGet (A : Type) (a : list A) (i : Z) : option A :=
  if (i <? 0)%Z then None else nth_error a (Z.to_nat i).

(** [dayColors[(day.day - 1) % dayColors.length]]; the remainder of
    JavaScript takes the sign of the dividend, as [Z.rem] does. *)
Definition dayColor (d : Z) : option string :=
  arrayGet dayColors (Z.rem (d - 1) (Z.of_nat (List.length dayColors))).

(** A Leaflet marker as the code configures it: position
    [[latitude, longitude]], the icon's background colour and label,
    and the fields interpolated into the popup. *)
Record Marker := {
  latlng : Q * Q;
  iconColor : option string;
  iconLabel : Z;
  popupTitle : string;
  popupTime : string;
  popupDay : Z;
  popupLocation : string
}.

(** [L.marker([coordinates[1], coordinates[0]], ...)]: Leaflet refuses
    a position whose members are not numbers and throws. *)
Definition invalidLatLng : string :=
  "Invalid LatLng object: (undefined, undefined)".

Definition marker (d : ItineraryDay) (color : option string)
           (a : ItineraryActivity) (c : Coordinates) : string + Marker :=
  match c with
  | Pair lon lat =>
      inr {| latlng := (lat, lon);
             iconColor := color;
             iconLabel := day d;
             popupTitle := title a;
             popupTime := time a;
             popupDay := day d;
             popupLocation := location a |}
  | Inherited _ => inl invalidLatLng
  end.

(** The state of the two nested [forEach] loops: the array [markers]
    (which is also what has been added to the map) and the index of
    the next random draw. *)
Record Build := {
  markers : list Marker;
  draws : nat
}.

(** [day.activities.forEach(activity => ...)]: [inl] is an exception
    leaving the loop, with the state reached so far. *)
Fixpoint forEachActivity (d : ItineraryDay) (color : option string)
         (acts : list ItineraryActivity) (b : Build)
  : (string * Build) + Build :=
  match acts with
  | [] => inr b
  | a :: rest =>
      let '(coordinates, n) := resolveCoordinates (location a) (draws b) in
      match coordinates with
      | None => forEachActivity d color rest {| markers := markers b; draws := n |}
      | Some c =>
          match marker d color a c with
          | inl msg => inl (msg, {| markers := markers b; draws := n |})
          | inr m =>
              forEachActivity d color rest
                {| markers := markers b ++ [m]; draws := n |}
          end
      end
  end.

(** [itinerary.forEach(day => ...)]. *)
Fixpoint forEachDay (itinerary : list ItineraryDay) (b : Build)
  : (string * Build) + Build :=
  match itinerary with
  | [] => inr b
  | d :: rest =>
      match forEachActivity d (dayColor (day d)) (activities d) b with
      | inl e => inl e
      | inr b' => forEachDay rest b'
      end
  end.

(** The markers placed on the map, whether or not the loop ended by
    an exception. *)
Definition placed (r : (string * Build) + Build) : list Marker :=
  match r with
  | inl (_, b) => markers b
  | inr b => markers b
  end.

(** A marker that carries the colour of the day it is labelled with. *)
Definition coloured (m : Marker) : Prop :=
  iconColor m = dayColor (iconLabel m) /\ popupDay m = iconLabel m.

(** *** Life cycle of the Leaflet instance (lines 34-39, 79-267) *)

(** A Leaflet map that has been created and not removed. *)
Record LeafletMap := {
  mapId : nat;
  layers : list Marker;
  fitted : bool
}.

Record Component := {
  mounted : bool;
  rendered : bool;                  (* a first render has happened *)
  isOpen : bool;                    (* prop of the last render *)
  leafletLoaded : bool;             (* leafletLoaded.current *)
  mapInstance : option nat;         (* mapInstance.current *)
  liveMaps : list LeafletMap;       (* created by L.map, not removed *)
  nextMapId : nat;
  timer : option (list ItineraryDay); (* pending setTimeout, with the
                                         itinerary its closure holds *)
  error : option string;
  mapLoaded : bool;
  nextDraw : nat
}.

Definition initial : Component :=
  {| mounted := true; rendered := false; isOpen := false;
     leafletLoaded := false; mapInstance := None; liveMaps := [];
     nextMapId := 0; timer := None; error := None; mapLoaded := false;
     nextDraw := 0 |}.

(** [mapInstance.current.remove(); mapInstance.current = null],
    guarded by [if (mapInstance.current)]. *)
Definition disposeMap (s : Component) : Component :=
  match mapInstance s with
  | None => s
  | Some i =>
      {| mounted := mounted s; rendered := rendered s; isOpen := isOpen s;
         leafletLoaded := leafletLoaded s;
         mapInstance := None;
         liveMaps := filter (fun m => negb (Nat.eqb (mapId m) i)) (liveMaps s);
         nextMapId := nextMapId s; timer := timer s; error := error s;
         mapLoaded := mapLoaded s; nextDraw := nextDraw s |}
  end.

Definition setTimer (t : option (list ItineraryDay)) (s : Component)
  : Component :=
  {| mounted := mounted s; rendered := rendered s; isOpen := isOpen s;
     leafletLoaded := leafletLoaded s; mapInstance := mapInstance s;
     liveMaps := liveMaps s; nextMapId := nextMapId s; timer := t;
     error := error s; mapLoaded := mapLoaded s; nextDraw := nextDraw s |}.

Definition setError (e : option string) (s : Component) : Component :=
  {| mounted := mounted s; rendered := rendered s; isOpen := isOpen s;
     leafletLoaded := leafletLoaded s; mapInstance := mapInstance s;
     liveMaps := liveMaps s; nextMapId := nextMapId s; timer := timer s;
     error := e; mapLoaded := mapLoaded s; nextDraw := nextDraw s |}.

(** The [try] block of the timer callback (lines 149-248).
    [createThrows] stands for [L.map] raising on its own account. *)
Definition initializeMap (createThrows : option string)
           (itinerary : list ItineraryDay) (s : Component) : Component :=
  match createThrows with
  | Some msg => setError (Some ("Could not load the map: " ++ msg)) s
  | None =>
      let i := nextMapId s in
      let r := forEachDay itinerary {| markers := []; draws := nextDraw s |} in
      let n := match r with inl (_, b) => draws b | inr b => draws b end in
      let thrown := match r with inl (msg, _) => Some msg | inr _ => None end in
      let view :=
        {| mapId := i;
           layers := placed r;
           fitted := match r with
                     | inl _ => false
                     | inr b => (0 <? List.length (markers b))%nat
                     end |} in
      {| mounted := mounted s; rendered := rendered s; isOpen := isOpen s;
         leafletLoaded := leafletLoaded s;
         mapInstance := Some i;
         liveMaps := liveMaps s ++ [view];
         nextMapId := S i;
         timer := timer s;
         error := match thrown with
                  | Some msg => Some ("Could not load the map: " ++ msg)
                  | None => error s
                  end;
         mapLoaded := match thrown with
                      | Some _ => mapLoaded s
                      | None => true
                      end;
         nextDraw := n |}
  end.

(** The callback handed to [setTimeout] (lines 136-253). *)
Definition timerCallback (containerPresent : bool)
           (createThrows : option string)
           (itinerary : list ItineraryDay) (s : Component) : Component :=
  if negb containerPresent
  then setError (Some "Map container not found") s
  else initializeMap createThrows itinerary (disposeMap s).

(** The effect with dependencies [[isOpen, itinerary, locations]]
    (lines 127-258), run with the props of the current render. *)
Definition initEffect (open : bool) (itinerary : list ItineraryDay)
           (s : Component) : Component :=
  if negb open || negb (leafletLoaded s)
  then s
  else setTimer (Some itinerary) (setError None s).

(** The effect with dependency [[isOpen]] (lines 261-267). *)
Definition closeEffect (open : bool) (s : Component) : Component :=
  if negb open then disposeMap s else s.

Inductive Event :=
| Render (open : bool) (itinerary : list ItineraryDay)
| ScriptLoaded
| TimerFires (containerPresent : bool) (createThrows : option string)
| Unmount.

Definition setProps (open : bool) (s : Component) : Component :=
  {| mounted := mounted s; rendered := true; isOpen := open;
     leafletLoaded := leafletLoaded s; mapInstance := mapInstance s;
     liveMaps := liveMaps s; nextMapId := nextMapId s; timer := timer s;
     error := error s; mapLoaded := mapLoaded s; nextDraw := nextDraw s |}.

(** One event of the host environment.  [locations] is a new array at
    every render, so every commit runs the clean-up of the previous
    initialisation effect ([clearTimeout]) and the effect again; the
    closing effect runs at the first render and when [isOpen] has
    changed.  An event that cannot occur in the current state (a timer
    that is not pending, anything after unmount except the script
    finishing to load) leaves the state as it is. *)
Definition step (s : Component) (e : Event) : Component :=
  match e with
  | Render open itinerary =>
      if mounted s then
        let changed := negb (rendered s) || negb (Bool.eqb open (isOpen s)) in
        let s1 := setTimer None s in
        let s2 := initEffect open itinerary s1 in
        let s3 := if changed then closeEffect open s2 else s2 in
        setProps open s3
      else s
  | ScriptLoaded =>
      {| mounted := mounted s; rendered := rendered s; isOpen := isOpen s;
         leafletLoaded := true; mapInstance := mapInstance s;
         liveMaps := liveMaps s; nextMapId := nextMapId s; timer := timer s;
         error := error s; mapLoaded := mapLoaded s; nextDraw := nextDraw s |}
  | TimerFires containerPresent createThrows =>
      match timer s with
      | Some itinerary =>
          timerCallback containerPresent createThrows itinerary
                        (setTimer None s)
      | None => s
      end
  | Unmount =>
      if mounted s then
        let s1 := disposeMap (setTimer None s) in
        {| mounted := false; rendered := rendered s1; isOpen := isOpen s1;
           leafletLoaded := leafletLoaded s1; mapInstance := mapInstance s1;
           liveMaps := liveMaps s1; nextMapId := nextMapId s1;
           timer := timer s1; error := error s1; mapLoaded := mapLoaded s1;
           nextDraw := nextDraw s1 |}
      else s
  end.

Definition run (events : list Event) : Component :=
  fold_left step events initial.

(** The reference cell owns every live map: the live maps are exactly
    the one [mapInstance.current] refers to, if any, and identifiers
    are not reused. *)
Definition owned (s : Component) : Prop :=
  map mapId (liveMaps s)
  = match mapInstance s with Some i => [i] | None => [] end
  /\ Forall (fun m => (mapId m < nextMapId s)%nat) (liveMaps s).

End Random.

End ItineraryMap.

(** ** Weather.tsx *)

Module Weather.

Inductive IconName :=
| CloudLightning | CloudDrizzle | CloudRain | Snowflake | CloudFog
| Sun | CloudSun | Cloud.

(** A rendered icon element: the component and its [className]. *)
Record Icon := {
  component : IconName;
  className : string
}.

Definition getWeatherIcon (weatherId : Z) : Icon :=
  if ((200 <=? weatherId) && (weatherId <? 300))%Z then
    {| component := CloudLightning; className := "h-8 w-8 text-yellow-500" |}
  else if ((300 <=? weatherId) && (weatherId <? 400))%Z then
    {| component := CloudDrizzle; className := "h-8 w-8 text-blue-400" |}
  else if ((500 <=? weatherId) && (weatherId <? 600))%Z then
    {| component := CloudRain; className := "h-8 w-8 text-blue-600" |}
  else if ((600 <=? weatherId) && (weatherId <? 700))%Z then
    {| component := Snowflake; className := "h-8 w-8 text-blue-200" |}
  else if ((700 <=? weatherId) && (weatherId <? 800))%Z then
    {| component := CloudFog; className := "h-8 w-8 text-gray-400" |}
  else if (weatherId =? 800)%Z then
    {| component := Sun; className := "h-8 w-8 text-yellow-500" |}
  else if (800 <? weatherId)%Z then
    {| component := CloudSun; className := "h-8 w-8 text-blue-400" |}
  else
    {| component := Cloud; className := "h-8 w-8 text-gray-400" |}.

(** The condition categories the icons stand for. *)
Inductive Category :=
| Thunderstorm | Drizzle | Rain | Snow | Atmosphere | Clear | Clouds
| Unclassified.

Definition category (i : IconName) : Category :=
  match i with
  | CloudLightning => Thunderstorm
  | CloudDrizzle => Drizzle
  | CloudRain => Rain
  | Snowflake => Snow
  | CloudFog => Atmosphere
  | Sun => Clear
  | CloudSun => Clouds
  | Cloud => Unclassified
  end.

(** [description.charAt(0).toUpperCase() + description.slice(1)]. *)
Definition getWeatherCondition (weatherId : Z) (description : string)
  : string :=
  match description with
  | EmptyString => EmptyString
  | String c rest => String (upperUnit c) rest
  end.

(** [Math.round]: the nearest integer, halves towards plus infinity. *)
Definition round (x : Q) : Q := inject_Z (Qfloor (x + (1 # 2))).

Record WeatherData := {
  condition : string;
  temperature : Q;
  humidity : Q;
  windSpeed : Q;
  icon : Icon
}.

Record Toast := {
  toastTitle : string;
  toastDescription : string;
  toastVariant : string
}.

(** The state of the component: the three [useState] cells and the
    toasts shown so far. *)
Record State := {
  weather : option WeatherData;
  loading : bool;
  error : option string;
  toasts : list Toast
}.

(** The parsed body of a response, as far as the code reads it:
    [data.weather[0]] with its [id] and [description], [data.main] with
    [temp] and [humidity], [data.wind] with [speed].  [None] is a member
    that is absent, on which the property read throws a [TypeError]. *)
Record Payload := {
  weather0 : option (Z * string);
  main : option (Q * Q);
  wind : option Q
}.

(** What [await fetch(...)] and [await response.json()] can do. *)
Inductive FetchOutcome :=
| Rejected (reason : string)                    (* fetch rejects *)
| Response (ok : bool) (body : option Payload). (* [None]: json() rejects *)

Definition setWeather (w : WeatherData) (s : State) : State :=
  {| weather := Some w; loading := loading s; error := error s;
     toasts := toasts s |}.

Definition setLoading (b : bool) (s : State) : State :=
  {| weather := weather s; loading := b; error := error s;
     toasts := toasts s |}.

Definition setError (e : option string) (s : State) : State :=
  {| weather := weather s; loading := loading s; error := e;
     toasts := toasts s |}.

Definition toast (t : Toast) (s : State) : State :=
  {| weather := weather s; loading := loading s; error := error s;
     toasts := toasts s ++ [t] |}.

(** The [try] block of [fetchWeatherData] (lines 65-90): [inl] is the
    exception that leaves it. *)
Definition tryBlock (location : string) (r : FetchOutcome) (s : State)
  : string + State :=
  match r with
  | Rejected reason => inl reason
  | Response false _ => inl ("Weather data not available for " ++ location)
  | Response true None => inl "Unexpected end of JSON input"
  | Response true (Some data) =>
      match weather0 data with
      | None => inl "Cannot read properties of undefined"
      | Some (id, description) =>
          match main data with
          | None => inl "Cannot read properties of undefined"
          | Some (temp, hum) =>
              match wind data with
              | None => inl "Cannot read properties of undefined"
              | Some speed =>
                  let weatherData :=
                    {| condition := getWeatherCondition id description;
                       temperature := round temp;
                       humidity := hum;
                       windSpeed := round (speed * (36 # 10));
                       icon := getWeatherIcon id |} in
                  inr (setLoading false (setWeather weatherData s))
              end
          end
      end
  end.

Definition placeholder : WeatherData :=
  {| condition := "Unknown";
     temperature := 25;
     humidity := 60;
     windSpeed := 10;
     icon := {| component := Cloud; className := "h-8 w-8 text-gray-400" |} |}.

(** The [catch] block (lines 91-110). *)
Definition catchBlock (location : string) (s : State) : State :=
  let s1 := setError (Some ("Could not fetch weather data for " ++ location)) s in
  let s2 := setLoading false s1 in
  let s3 := toast {| toastTitle := "Weather data error";
                     toastDescription :=
                       "Could not load weather for " ++ location
                       ++ ". Using default data.";
                     toastVariant := "destructive" |} s2 in
  setWeather placeholder s3.

Definition fetchWeatherData (location : string) (r : FetchOutcome)
           (s : State) : State :=
  match tryBlock location r s with
  | inr s' => s'
  | inl _ => catchBlock location s
  end.

(** The effect (lines 59-115): reset, then fetch. *)
Definition effect (location : string) (r : FetchOutcome) (s : State)
  : State :=
  fetchWeatherData location r (setError None (setLoading true s)).

(** The fetch has failed: it rejected, the response is not ok, or
    reading the body threw. *)
Definition failed (location : string) (r : FetchOutcome) (s : State)
  : bool :=
  match tryBlock location r s with
  | inl _ => true
  | inr _ => false
  end.

End Weather.

(** ** useItinerary.ts *)

Module UseItinerary.

(** The hook declares [ItineraryActivity] and [ItineraryDay] with the
    same members as the map component; the records are shared. *)
Import ItineraryMap.

(** *** Data *)

(** A row of [user_itineraries]: the members of [SavedItinerary] and the
    owner column the queries filter on. *)
Record SavedItinerary := {
  id : string;
  user_id : string;
  s_title : string;
  s_days : Z;
  start_date : option string;
  pace : option string;
  budget : option string;
  interests : option (list string);
  transportation : option string;
  include_food : option bool;
  created_at : string;
  updated_at : string
}.

(** A row of [itinerary_activities]. *)
Record ActivityRow := {
  itinerary_id : string;
  a_day : Z;
  a_time : string;
  a_title : string;
  a_location : string;
  a_description : option string;
  a_image : option string;
  a_category : option string
}.

(** The argument [itineraryData] of [saveItinerary] and
    [updateItinerary]; [d_start_date] holds the ISO string of the date. *)
Record ItineraryData := {
  d_title : string;
  d_days : Z;
  d_start_date : option string;
  d_pace : string;
  d_budget : string;
  d_interests : list string;
  d_transportation : string;
  d_include_food : bool
}.

Record User := { userId : string }.

(** The requests the hook sends to the backend. *)
Inductive Request :=
| SelectItineraries (user : string)
| SelectItinerary (itinerary user : string)
| SelectActivities (itinerary : string)
| DeleteItinerary (itinerary user : string)
| InsertItinerary (user : string) (data : ItineraryData)
| InsertActivities (rows : list ActivityRow)
| UpdateItinerary (itinerary user : string) (data : ItineraryData)
| DeleteActivities (itinerary : string).

Record Toast := {
  toastTitle : string;
  toastDescription : string;
  toastVariant : option string
}.

(** The backend (its two tables and the requests it has received)
    together with the state of the hook. *)
Record World := {
  user_itineraries : list SavedItinerary;
  itinerary_activities : list ActivityRow;
  requests : list Request;
  itineraries : list SavedItinerary;
  loading : bool;
  error : option string;
  toasts : list Toast
}.

(** *** A state monad with exceptions, for the [try] blocks *)

Definition M (A : Type) : Type := World -> (string + A) * World.

Definition ret (A : Type) (a : A) : M A := fun w => (inr a, w).

Definition throw (A : Type) (msg : string) : M A := fun w => (inl msg, w).

Definition bind (A B : Type) (m : M A) (k : A -> M B) : M B :=
  fun w =>
    match m w with
    | (inl e, w') => (inl e, w')
    | (inr a, w') => k a w'
    end.

Declare Scope hook_scope.
Delimit Scope hook_scope with hook.
Notation "x <- m ;; k" := (bind m (fun x => k))
  (at level 61, m at next level, right associativity) : hook_scope.
Notation "m ;;; k" := (bind m (fun _ => k))
  (at level 61, right associativity) : hook_scope.
Local Open Scope hook_scope.

Definition modify (f : World -> World) : M unit := fun w => (inr tt, f w).

Definition setItineraries (l : list SavedItinerary) : M unit :=
  modify (fun w =>
    {| user_itineraries := user_itineraries w;
       itinerary_activities := itinerary_activities w;
       requests := requests w;
       itineraries := l; loading := loading w; error := error w;
       toasts := toasts w |}).

Definition setLoading (b : bool) : M unit :=
  modify (fun w =>
    {| user_itineraries := user_itineraries w;
       itinerary_activities := itinerary_activities w;
       requests := requests w;
       itineraries := itineraries w; loading := b; error := error w;
       toasts := toasts w |}).

Definition setError (e : option string) : M unit :=
  modify (fun w =>
    {| user_itineraries := user_itineraries w;
       itinerary_activities := itinerary_activities w;
       requests := requests w;
       itineraries := itineraries w; loading := loading w; error := e;
       toasts := toasts w |}).

Definition toast (t : Toast) : M unit :=
  modify (fun w =>
    {| user_itineraries := user_itineraries w;
       itinerary_activities := itinerary_activities w;
       requests := requests w;
       itineraries := itineraries w; loading := loading w; error := error w;
       toasts := toasts w ++ [t] |}).

Definition get : M World := fun w => (inr w, w).

(** [try { body } catch (err) { handler(err.message) } finally
    { setLoading(false) }], the shape of the operations; the handlers
    only set state and return, so they are state functions. *)
Definition tryCatchFinally (A : Type) (body : M A)
           (handler : string -> World -> A * World)
           (finally : World -> World) (w : World) : A * World :=
  match body w with
  | (inr a, w1) => (a, finally w1)
  | (inl e, w1) => let '(a, w2) := handler e w1 in (a, finally w2)
  end.

Definition setLoadingW (b : bool) (w : World) : World := snd (setLoading b w).
Definition setErrorW (e : option string) (w : World) : World :=
  snd (setError e w).
Definition setItinerariesW (l : list SavedItinerary) (w : World) : World :=
  snd (setItineraries l w).
Definition toastW (t : Toast) (w : World) : World := snd (toast t w).

(** [a || b] on strings. *)
Definition orElse (a b : string) : string := if truthy a then a else b.

(** [s || null]. *)
Definition orNull (s : string) : option string :=
  if truthy s then Some s else None.

(** *** Ordering of query results *)

Fixpoint insertBy (A : Type) (le : A -> A -> bool) (x : A) (l : list A)
  : list A :=
  match l with
  | [] => [x]
  | y :: l' => if le x y then x :: l else y :: insertBy le x l'
  end.

Definition sortBy (A : Type) (le : A -> A -> bool) (l : list A) : list A :=
  fold_right (insertBy le) [] l.

Section Backend.

(** The error, if any, with which the backend answers a request. *)
Variable fault : Request -> option string.
(** The key the backend gives to a new row, and the current time as
    an ISO string. *)
Variable newId : list SavedItinerary -> string.
Variable now : string.

Definition received (r : Request) (w : World) : World :=
  {| user_itineraries := user_itineraries w;
     itinerary_activities := itinerary_activities w;
     requests := requests w ++ [r];
     itineraries := itineraries w; loading := loading w; error := error w;
     toasts := toasts w |}.

Definition setTables (its : list SavedItinerary) (acts : list ActivityRow)
           (w : World) : World :=
  {| user_itineraries := its;
     itinerary_activities := acts;
     requests := requests w;
     itineraries := itineraries w; loading := loading w; error := error w;
     toasts := toasts w |}.

(** [const { data, error } = await supabase...; if (error) throw error]:
    the request reaches the backend, which answers with an error (and
    the code throws it) or executes it. *)
Definition request (A : Type) (r : Request) (exec : World -> A * World)
  : M A :=
  fun w =>
    let w1 := received r w in
    match fault r with
    | Some msg => (inl msg, w1)
    | None => let '(a, w2) := exec w1 in (inr a, w2)
    end.

Definition owns (user itinerary : string) (row : SavedItinerary) : bool :=
  String.eqb (id row) itinerary && String.eqb (user_id row) user.

Definition applyData (data : ItineraryData) (row : SavedItinerary)
  : SavedItinerary :=
  {| id := id row; user_id := user_id row;
     s_title := d_title data; s_days := d_days data;
     start_date := d_start_date data;
     pace := Some (d_pace data); budget := Some (d_budget data);
     interests := Some (d_interests data);
     transportation := Some (d_transportation data);
     include_food := Some (d_include_food data);
     created_at := created_at row; updated_at := now |}.

Definition activityLe (a b : ActivityRow) : bool :=
  (a_day a <? a_day b)%Z
  || ((a_day a =? a_day b)%Z && String.leb (a_time a) (a_time b)).

(** What the backend does with a request it accepts; the answer is
    the list of selected (or inserted) itineraries and activities. *)
Definition execute (r : Request) (w : World)
  : (list SavedItinerary * list ActivityRow) * World :=
  match r with
  | SelectItineraries user =>
      (sortBy (fun a b => String.leb (updated_at b) (updated_at a))
              (filter (fun row => String.eqb (user_id row) user)
                      (user_itineraries w)), [], w)
  | SelectItinerary itinerary user =>
      (filter (owns user itinerary) (user_itineraries w), [], w)
  | SelectActivities itinerary =>
      ([], sortBy activityLe
             (filter (fun a => String.eqb (itinerary_id a) itinerary)
                     (itinerary_activities w)), w)
  | DeleteItinerary itinerary user =>
      ([], [], setTables
                 (filter (fun row => negb (owns user itinerary row))
                         (user_itineraries w))
                 (itinerary_activities w) w)
  | InsertItinerary user data =>
      let row :=
        applyData data
          {| id := newId (user_itineraries w); user_id := user;
             s_title := ""; s_days := 0; start_date := None; pace := None;
             budget := None; interests := None; transportation := None;
             include_food := None; created_at := now; updated_at := now |} in
      ([row], [], setTables (user_itineraries w ++ [row])
                            (itinerary_activities w) w)
  | InsertActivities rows =>
      ([], rows, setTables (user_itineraries w)
                           (itinerary_activities w ++ rows) w)
  | UpdateItinerary itinerary user data =>
      ([], [], setTables
                 (map (fun row => if owns user itinerary row
                                  then applyData data row else row)
                      (user_itineraries w))
                 (itinerary_activities w) w)
  | DeleteActivities itinerary =>
      ([], [], setTables
                 (user_itineraries w)
                 (filter (fun a => negb (String.eqb (itinerary_id a) itinerary))
                         (itinerary_activities w)) w)
  end.

Definition send (r : Request)
  : M (list SavedItinerary * list ActivityRow) :=
  request r (execute r).

(** [.single()]: exactly one row, or an error. *)
Definition single (A : Type) (rows : list A) : M A :=
  match rows with
  | [row] => ret row
  | _ => throw A "JSON object requested, multiple (or no) rows returned"
  end.

(** *** fetchItineraries (lines 45-78) *)

Definition fetchItineraries (user : option User) (w : World) : World :=
  match user with
  | None => setLoadingW false (setItinerariesW [] w)
  | Some u =>
      snd (tryCatchFinally
             (setLoading true ;;;
              setError None ;;;
              answer <- send (SelectItineraries (userId u)) ;;
              setItineraries (fst answer))
             (fun msg w1 =>
                (tt, toastW {| toastTitle := "Error fetching itineraries";
                               toastDescription := msg;
                               toastVariant := Some "destructive" |}
                            (setErrorW (Some msg) w1)))
             (setLoadingW false) w)
  end.

(** *** fetchItineraryById (lines 80-146) *)

Definition toActivity (a : ActivityRow) : ItineraryActivity :=
  {| time := a_time a;
     title := a_title a;
     location := a_location a;
     description := match a_description a with
                    | Some d => orElse d ""
                    | None => ""
                    end;
     image := a_image a;
     category := match a_category a with
                 | Some c => orElse c ""
                 | None => ""
                 end |}.

(** The object [days], as the list of its entries: an activity joins
    the entry of its day, or opens a new one. *)
Fixpoint pushActivity (a : ActivityRow) (days : list ItineraryDay)
  : list ItineraryDay :=
  match days with
  | [] => [ {| day := a_day a; activities := [toActivity a] |} ]
  | d :: days' =>
      if (day d =? a_day a)%Z
      then {| day := day d; activities := activities d ++ [toActivity a] |}
           :: days'
      else d :: pushActivity a days'
  end.

(** [Object.values(days).sort((a, b) => a.day - b.day)]; the days of
    the entries are distinct, so the sorted list does not depend on
    the order in which [Object.values] lists them. *)
Definition formatItinerary (rows : list ActivityRow) : list ItineraryDay :=
  sortBy (fun a b => (day a <=? day b)%Z)
         (fold_left (fun days a => pushActivity a days) rows []).

Definition fetchItineraryById (user : option User) (itinerary : string)
           (w : World)
  : option (SavedItinerary * list ItineraryDay) * World :=
  match user with
  | None => (None, w)
  | Some u =>
      tryCatchFinally
        (setLoading true ;;;
         setError None ;;;
         answer <- send (SelectItinerary itinerary (userId u)) ;;
         itineraryData <- single (fst answer) ;;
         answer' <- send (SelectActivities itinerary) ;;
         ret (Some (itineraryData, formatItinerary (snd answer'))))
        (fun msg w1 =>
           (None, toastW {| toastTitle := "Error fetching itinerary";
                            toastDescription := msg;
                            toastVariant := Some "destructive" |}
                         (setErrorW (Some msg) w1)))
        (setLoadingW false) w
  end.

(** *** deleteItinerary (lines 148-184) *)

Definition deleteItinerary (user : option User) (itinerary : string)
           (w : World) : bool * World :=
  match user with
  | None => (false, w)
  | Some u =>
      tryCatchFinally
        (setLoading true ;;;
         setError None ;;;
         send (DeleteItinerary itinerary (userId u)) ;;;
         w1 <- get ;;
         setItineraries
           (filter (fun item => negb (String.eqb (id item) itinerary))
                   (itineraries w1)) ;;;
         toast {| toastTitle := "Itinerary deleted";
                  toastDescription :=
                    "Your itinerary has been deleted successfully.";
                  toastVariant := None |} ;;;
         ret true)
        (fun msg w1 =>
           (false, toastW {| toastTitle := "Error deleting itinerary";
                             toastDescription := msg;
                             toastVariant := Some "destructive" |}
                          (setErrorW (Some msg) w1)))
        (setLoadingW false) w
  end.

(** *** saveItinerary (lines 186-294), updateItinerary (296-405) *)

(** [itinerary.flatMap(day => day.activities.map(activity => ...))]. *)
Definition activitiesData (itinerary : string) (days : list ItineraryDay)
  : list ActivityRow :=
  flat_map
    (fun d =>
       map (fun a =>
              {| itinerary_id := itinerary;
                 a_day := day d;
                 a_time := time a;
                 a_title := title a;
                 a_location := location a;
                 a_description := orNull (description a);
                 a_image := match image a with
                            | Some i => orNull i
                            | None => None
                            end;
                 a_category := orNull (category a) |})
           (activities d))
    days.

Definition authenticationRequired (what : string) : Toast :=
  {| toastTitle := "Authentication required";
     toastDescription := "Please sign in to " ++ what ++ " your itinerary.";
     toastVariant := Some "destructive" |}.

Definition saveItinerary (user : option User) (data : ItineraryData)
           (itinerary : list ItineraryDay) (w : World) : bool * World :=
  match user with
  | None => (false, toastW (authenticationRequired "save") w)
  | Some u =>
      tryCatchFinally
        (setLoading true ;;;
         answer <- send (InsertItinerary (userId u) data) ;;
         match fst answer with
         | savedItinerary :: _ =>
             send (InsertActivities
                     (activitiesData (id savedItinerary) itinerary)) ;;;
             modify (fetchItineraries user) ;;;
             toast {| toastTitle := "Itinerary saved";
                      toastDescription :=
                        "Your itinerary has been saved successfully.";
                      toastVariant := None |} ;;;
             ret true
         | [] => ret false
         end)
        (fun msg w1 =>
           (false, toastW {| toastTitle := "Error saving itinerary";
                             toastDescription :=
                               orElse msg
                                 "There was an error saving your itinerary.";
                             toastVariant := Some "destructive" |} w1))
        (setLoadingW false) w
  end.

Definition updateItinerary (user : option User) (itinerary : string)
           (data : ItineraryData) (days : list ItineraryDay) (w : World)
  : bool * World :=
  match user with
  | None => (false, toastW (authenticationRequired "update") w)
  | Some u =>
      tryCatchFinally
        (setLoading true ;;;
         send (UpdateItinerary itinerary (userId u) data) ;;;
         send (DeleteActivities itinerary) ;;;
         send (InsertActivities (activitiesData itinerary days)) ;;;
         modify (fetchItineraries user) ;;;
         toast {| toastTitle := "Itinerary updated";
                  toastDescription :=
                    "Your itinerary has been updated successfully.";
                  toastVariant := None |} ;;;
         ret true)
        (fun msg w1 =>
           (false, toastW {| toastTitle := "Error updating itinerary";
                             toastDescription :=
                               orElse msg
                                 "There was an error updating your itinerary.";
                             toastVariant := Some "destructive" |} w1))
        (setLoadingW false) w
  end.

End Backend.

(** *** downloadItineraryAsPdf (lines 407-508) *)

(** A drawing operation of jsPDF, in millimetres. *)
Inductive Op :=
| Text (fontSize : Q) (text : string) (x y : Q)
| Image (x y width height : Q).

(** A document: its pages in order, each the operations drawn on it.
    Drawing goes to the last page, which [addPage] opens. *)
Definition Pdf := list (list Op).

Definition newPdf : Pdf := [[]].

Definition draw (o : Op) (pdf : Pdf) : Pdf :=
  match rev pdf with
  | [] => [[o]]
  | last :: before => (rev before ++ [last ++ [o]])%list
  end.

Definition addPage (pdf : Pdf) : Pdf := (pdf ++ [[]])%list.

Definition imgWidth : Q := 210.
Definition pageHeight : Q := 295.

(** The [while (heightLeft > 0)] loop (lines 483-495).  In each turn
    [position] is reset to 0 and the image is drawn at
    [position - (pageHeight - 30)]. *)
Equations? addPages (imgHeight heightLeft : Q) (pdf : Pdf) : Pdf
  by wf (Z.to_nat (Qceiling heightLeft)) lt :=
  addPages imgHeight heightLeft pdf with Qlt_le_dec 0 heightLeft := {
    | left _ =>
        let position := 0 in
        addPages imgHeight (heightLeft - pageHeight)
                 (draw (Image 0 (position - (pageHeight - 30)) imgWidth imgHeight)
                       (addPage pdf))
    | right _ => pdf
  }.
Proof.
  assert (H1 : (0 < Qceiling heightLeft)%Z).
  { rewrite Zlt_Qlt. eapply Qlt_le_trans; [exact q | apply Qle_ceiling]. }
  assert (H2 : (Qceiling (heightLeft - pageHeight) <= Qceiling heightLeft - 295)%Z).
  { rewrite <- (Qceiling_Z (Qceiling heightLeft - 295)).
    apply Qceiling_resp_le.
    pose proof (Qle_ceiling heightLeft) as H.
    unfold pageHeight, Z.sub. rewrite inject_Z_plus, inject_Z_opp.
    change (inject_Z 295) with 295. lra. }
  lia.
Qed.

(** Lines 466-495: the image on page 1 at [position = 30], then the
    overflow pages. *)
Definition paginate (imgHeight : Q) (pdf : Pdf) : Pdf :=
  let heightLeft := imgHeight in
  let position := 30 in
  let pdf1 := draw (Image 0 position imgWidth imgHeight) pdf in
  let heightLeft := heightLeft - (pageHeight - position) in
  addPages imgHeight heightLeft pdf1.

(** [title.replace(/\s+/g, '_')]: every maximal run of white space
    becomes one underscore. *)
Fixpoint replaceWhiteSpace (inRun : bool) (s : string) : string :=
  match s with
  | EmptyString => EmptyString
  | String c s' =>
      if isWhiteSpace c
      then if inRun then replaceWhiteSpace true s'
           else String "_" (replaceWhiteSpace true s')
      else String c (replaceWhiteSpace false s')
  end.

(** What looking the element up and capturing it can give. *)
Inductive Capture :=
| NoElement
| CaptureFails (message : string)
| Canvas (width height : positive).

Inductive Sonner :=
| ToastLoading (text : string)
| ToastSuccess (text : string)
| ToastError (text : string).

(** The outside of the export: the toasts and the files saved. *)
Record Export := {
  sonner : list Sonner;
  saved : list (string * Pdf)
}.

Definition notify (t : Sonner) (e : Export) : Export :=
  {| sonner := sonner e ++ [t]; saved := saved e |}.

Definition document (today title : string) (width height : positive) : Pdf :=
  let imgHeight := (inject_Z (Zpos height) * imgWidth) / inject_Z (Zpos width) in
  let pdf := newPdf in
  let pdf := draw (Text 16 title 15 15) pdf in
  let pdf := draw (Text 10 ("Generated on: " ++ today) 15 22) pdf in
  paginate imgHeight pdf.

Definition downloadItineraryAsPdf (today title : string) (c : Capture)
           (e : Export) : bool * Export :=
  let e1 := notify (ToastLoading "Generating PDF...") e in
  match c with
  | NoElement =>
      (false,
       notify (ToastError ("Failed to download itinerary: "
                           ++ "Could not find the itinerary content element"))
              e1)
  | CaptureFails message =>
      (false,
       notify (ToastError ("Failed to download itinerary: "
                           ++ orElse message "Unknown error")) e1)
  | Canvas width height =>
      let pdf := document today title width height in
      let e2 := {| sonner := sonner e1;
                   saved := saved e1
                            ++ [(replaceWhiteSpace false title ++ "_itinerary.pdf",
                                 pdf)] |} in
      (true, notify (ToastSuccess "Itinerary downloaded successfully!") e2)
  end.

(** The vertical offsets at which the image is drawn, page by page. *)
Definition imageOffsets (pdf : Pdf) : list (list Q) :=
  map (fun page =>
         flat_map (fun o => match o with
                            | Image _ y _ _ => [y]
                            | Text _ _ _ _ => []
                            end) page)
      pdf.

End UseItinerary.

(** * Properties *)

Unset Implicit Arguments.

(** ** Strings *)

Module JsStringFacts.

Lemma prefix_empty (s : string) : prefix "" s = true.
Proof. destruct s; reflexivity. Qed.

(** The empty string occurs in every string. *)
Lemma includes_empty (s : string) : includes s "" = true.
Proof. destruct s; reflexivity. Qed.

Lemma lowerUnit_whiteSpace (c : ascii) :
  isWhiteSpace c = true -> lowerUnit c = c.
Proof.
  destruct c as [[] [] [] [] [] [] [] []]; vm_compute; congruence.
Qed.

Lemma toLowerCase_whiteSpace (s : string) :
  allWhiteSpace s = true -> toLowerCase s = s.
Proof.
  induction s as [|c s IH]; simpl; [reflexivity|].
  intros H. apply andb_true_iff in H as [Hc Hs].
  now rewrite lowerUnit_whiteSpace, IH.
Qed.

Lemma prefix_allWhiteSpace (p s : string) :
  prefix p s = true -> allWhiteSpace s = true -> allWhiteSpace p = true.
Proof.
  revert s. induction p as [|a p IH]; intros s; [reflexivity|].
  destruct s as [|b s]; simpl; [discriminate|].
  destruct (ascii_dec a b) as [->|]; [|discriminate].
  intros Hp H. apply andb_true_iff in H as [Hb Hs].
  rewrite Hb. simpl. eauto.
Qed.

Lemma includes_cons (b : ascii) (s needle : string) :
  includes (String b s) needle
  = prefix needle (String b s) || includes s needle.
Proof. reflexivity. Qed.

(** What occurs in a string of white space is white space. *)
Lemma includes_allWhiteSpace (s needle : string) :
  includes s needle = true -> allWhiteSpace s = true ->
  allWhiteSpace needle = true.
Proof.
  induction s as [|b s IH].
  - destruct needle; [reflexivity|discriminate].
  - rewrite includes_cons. intros H Hs.
    apply orb_true_iff in H as [H|H].
    + eapply prefix_allWhiteSpace; [exact H|exact Hs].
    + simpl in Hs. apply andb_true_iff in Hs as [_ Hs]. auto.
Qed.

Lemma includes_adjacentWhiteSpace (s : string) (a b : ascii) (rest : string) :
  isWhiteSpace a = true -> isWhiteSpace b = true ->
  includes s (String a (String b rest)) = true ->
  adjacentWhiteSpace s = true.
Proof.
  intros Ha Hb. induction s as [|x s IH]; [discriminate|].
  rewrite includes_cons. intros H. apply orb_true_iff in H as [H|H].
  - simpl in H.
    destruct (ascii_dec a x) as [<-|]; [|discriminate].
    destruct s as [|y s]; simpl in H; [discriminate|].
    destruct (ascii_dec b y) as [<-|]; [|discriminate].
    simpl. now rewrite Ha, Hb.
  - destruct s as [|y s]; [simpl in H; discriminate|].
    change (adjacentWhiteSpace (String x (String y s)))
      with ((isWhiteSpace x && isWhiteSpace y)
            || adjacentWhiteSpace (String y s)).
    rewrite (IH H). apply orb_true_r.
Qed.

Lemma includes_single (s : string) (c : ascii) :
  includes s (String c "") = occurs c s.
Proof.
  induction s as [|a s IH]; [reflexivity|].
  rewrite includes_cons, IH. simpl. f_equal.
  destruct (ascii_dec c a) as [->|n].
  - rewrite prefix_empty. now rewrite Ascii.eqb_refl.
  - symmetry. apply Ascii.eqb_neq. congruence.
Qed.

End JsStringFacts.

(** ** The location resolver *)

Module ResolverFacts.

Import ItineraryMap JsStringFacts.

Lemma find_none_intro (A : Type) (f : A -> bool) (l : list A) :
  (forall x, In x l -> f x = false) -> find f l = None.
Proof.
  induction l as [|a l IH]; intros H; [reflexivity|].
  simpl. rewrite (H a (or_introl eq_refl)). apply IH.
  intros x Hx. apply H. now right.
Qed.

Lemma ownProperty_In (o : list (string * (Q * Q))) (name : string) (v : Q * Q) :
  ownProperty o name = Some v -> In name (keys o).
Proof.
  induction o as [|[k c] o IH]; simpl; [discriminate|].
  destruct (String.eqb_spec k name) as [->|_]; [now left|].
  intros H. right. now apply IH.
Qed.

Lemma ownProperty_keys (o : list (string * (Q * Q))) (k : string) :
  In k (keys o) -> exists v, ownProperty o k = Some v.
Proof.
  induction o as [|[k' c] o IH]; simpl; [tauto|].
  intros [->|H].
  - rewrite String.eqb_refl. eauto.
  - destruct (String.eqb k' k); eauto.
Qed.

(** Facts of the table, checked key by key. *)

Lemma keys_check (P : string -> bool) :
  forallb P (keys locationCoordinates) = true ->
  forall k, In k (keys locationCoordinates) -> P k = true.
Proof. intros H k. now apply forallb_forall. Qed.

Lemma keys_truthy (k : string) :
  In k (keys locationCoordinates) -> truthy k = true.
Proof. apply keys_check. vm_compute. reflexivity. Qed.

Lemma keys_not_inherited (k : string) :
  In k (keys locationCoordinates) ->
  existsb (String.eqb k) objectPrototypeNames = false.
Proof.
  intros H. apply negb_true_iff. revert k H. apply keys_check.
  vm_compute. reflexivity.
Qed.

Lemma keys_not_whiteSpace (k : string) :
  In k (keys locationCoordinates) -> allWhiteSpace k = false.
Proof.
  intros H. apply negb_true_iff. revert k H. apply keys_check.
  vm_compute. reflexivity.
Qed.

Lemma keys_lower_not_whiteSpace (k : string) :
  In k (keys locationCoordinates) -> allWhiteSpace (toLowerCase k) = false.
Proof.
  intros H. apply negb_true_iff. revert k H. apply keys_check.
  vm_compute. reflexivity.
Qed.

Lemma keys_no_adjacentWhiteSpace (k : string) :
  In k (keys locationCoordinates) ->
  adjacentWhiteSpace (toLowerCase k) = false.
Proof.
  intros H. apply negb_true_iff. revert k H. apply keys_check.
  vm_compute. reflexivity.
Qed.

(** The only white space in the keys is the space character. *)
Lemma keys_only_spaces (c : ascii) (k : string) :
  isWhiteSpace c = true -> c <> " "%char ->
  In k (keys locationCoordinates) -> occurs c (toLowerCase k) = false.
Proof.
  intros Hc Hn H. apply negb_true_iff. revert k H. apply keys_check.
  destruct c as [[] [] [] [] [] [] [] []];
    try discriminate Hc; try (now elim Hn); vm_compute; reflexivity.
Qed.

(** A string of white space is neither a key of the table nor a name
    inherited from the prototype. *)
Lemma getProperty_whiteSpace (loc : string) :
  allWhiteSpace loc = true -> getProperty locationCoordinates loc = None.
Proof.
  intros H. unfold getProperty.
  destruct (ownProperty locationCoordinates loc) as [v|] eqn:E.
  - apply ownProperty_In, keys_not_whiteSpace in E. congruence.
  - destruct (existsb (String.eqb loc) objectPrototypeNames) eqn:E'; [|reflexivity].
    apply existsb_exists in E' as (name & Hin & He).
    apply String.eqb_eq in He. subst name.
    assert (forallb (fun s => negb (allWhiteSpace s)) objectPrototypeNames = true)
      as F by (vm_compute; reflexivity).
    rewrite forallb_forall in F. specialize (F _ Hin).
    rewrite H in F. discriminate.
Qed.

Section Random.

Variable random : nat -> Q.

(** The step a table key takes: its own coordinate, no draw. *)
Lemma resolve_exact (loc : string) (lon lat : Q) (n : nat) :
  ownProperty locationCoordinates loc = Some (lon, lat) ->
  resolveCoordinates random loc n = (Some (Pair lon lat), n).
Proof.
  intros H. unfold resolveCoordinates, getProperty. now rewrite H.
Qed.

(** The step a partial match takes, for a string that is neither a
    key nor a name inherited from [Object.prototype]. *)
Lemma resolve_partial (loc key : string) (n : nat) :
  ownProperty locationCoordinates loc = None ->
  existsb (String.eqb loc) objectPrototypeNames = false ->
  find (partialMatch loc) (keys locationCoordinates) = Some key ->
  exists lon lat,
    ownProperty locationCoordinates key = Some (lon, lat)
    /\ resolveCoordinates random loc n = (Some (Pair lon lat), n).
Proof.
  intros H1 H2 H3. unfold resolveCoordinates, getProperty.
  rewrite H1, H2, H3.
  apply find_some in H3 as [Hin _].
  rewrite (keys_truthy _ Hin).
  destruct (ownProperty_keys _ _ Hin) as [[lon lat] E].
  exists lon, lat. now rewrite E.
Qed.

(** The last step, under the same proviso. *)
Lemma resolve_fallback (loc : string) (n : nat) :
  ownProperty locationCoordinates loc = None ->
  existsb (String.eqb loc) objectPrototypeNames = false ->
  find (partialMatch loc) (keys locationCoordinates) = None ->
  resolveCoordinates random loc n = fallbackCoordinates random n.
Proof.
  intros H1 H2 H3. unfold resolveCoordinates, getProperty.
  now rewrite H1, H2, H3.
Qed.

(** Both offsets of the fallback stay within 0.01 of the centre, and
    the two draws are consecutive values of the source. *)
Lemma fallback_bounds (n : nat) :
  (forall k, 0 <= random k < 1) ->
  exists lon lat,
    fallbackCoordinates random n = (Some (Pair lon lat), S (S n))
    /\ lon == (730169 # 10000) + (random n - (1 # 2)) * (2 # 100)
    /\ lat == (190330 # 10000) + (random (S n) - (1 # 2)) * (2 # 100)
    /\ (730169 # 10000) - (1 # 100) <= lon <= (730169 # 10000) + (1 # 100)
    /\ (190330 # 10000) - (1 # 100) <= lat <= (190330 # 10000) + (1 # 100).
Proof.
  intros R. unfold fallbackCoordinates, randomOffset, defaultCenter.
  cbn [fst snd].
  eexists _, _. split; [reflexivity|].
  pose proof (R n) as Rn. pose proof (R (S n)) as Rm.
  repeat split; try reflexivity; lra.
Qed.

(** A string of white space other than the empty string and the
    single space matches no key in either direction. *)
Lemma whiteSpace_no_partialMatch (loc : string) :
  allWhiteSpace loc = true -> loc <> "" -> loc <> " " ->
  find (partialMatch loc) (keys locationCoordinates) = None.
Proof.
  intros W N0 N1. apply find_none_intro. intros key Hin.
  unfold partialMatch. rewrite (toLowerCase_whiteSpace _ W).
  apply orb_false_iff. split.
  - destruct (includes loc (toLowerCase key)) eqn:E; [|reflexivity].
    pose proof (includes_allWhiteSpace _ _ E W) as A.
    rewrite (keys_lower_not_whiteSpace _ Hin) in A. discriminate.
  - destruct loc as [|a [|b rest]]; [now elim N0| |].
    + rewrite includes_single. apply keys_only_spaces; [|congruence|exact Hin].
      simpl in W. now rewrite andb_true_r in W.
    + destruct (includes (toLowerCase key) (String a (String b rest))) eqn:E;
        [|reflexivity].
      simpl in W. apply andb_true_iff in W as [Wa W].
      apply andb_true_iff in W as [Wb _].
      pose proof (includes_adjacentWhiteSpace _ _ _ _ Wa Wb E) as A.
      rewrite (keys_no_adjacentWhiteSpace _ Hin) in A. discriminate.
Qed.

(** C1 (failing input).  The location "constructor" is no key of the
    table and matches no key partially, so the precedence of the claim
    calls for the fallback coordinate; the exact-match test of line 184
    finds the member inherited from [Object.prototype] instead, the
    value of [coordinates] is not a coordinate pair, no draw is made,
    and building the marker throws out of both loops. *)
Theorem resolve_constructor_is_no_coordinate (n : nat) :
  ownProperty locationCoordinates "constructor" = None
  /\ find (partialMatch "constructor") (keys locationCoordinates) = None
  /\ resolveCoordinates random "constructor" n
     = (Some (Inherited "constructor"), n)
  /\ forEachDay random
       [ {| day := 1;
            activities := [ {| time := "09:00"; title := "Walk";
                               location := "constructor";
                               description := ""; image := None;
                               category := "" |} ] |} ]
       {| markers := []; draws := n |}
     = inl (invalidLatLng, {| markers := []; draws := n |}).
Proof. repeat split; reflexivity. Qed.

(** C3 (failing input).  The location "toString" has no exact match
    and no partial match against the table, yet the resolver does not
    return the perturbed default centre: it returns the inherited
    member and consumes no random draw. *)
Theorem resolve_toString_is_not_fallback (n : nat) :
  ownProperty locationCoordinates "toString" = None
  /\ find (partialMatch "toString") (keys locationCoordinates) = None
  /\ resolveCoordinates random "toString" n
     = (Some (Inherited "toString"), n)
  /\ resolveCoordinates random "toString" n <> fallbackCoordinates random n.
Proof.
  repeat split; try reflexivity.
  unfold fallbackCoordinates, randomOffset. cbn. intros H.
  inversion H.
Qed.

(** C2 (amended).  For a location made of white space only, the exact
    match never hits, and the partial match is still tried: the empty
    string resolves to the first entry of the table (Vashi), the
    single space to the first key that holds a space (Kopar Khairane),
    and every other such string gets the randomized fallback. *)
Theorem whiteSpace_resolution (loc : string) (n : nat) :
  allWhiteSpace loc = true ->
  getProperty locationCoordinates loc = None
  /\ (loc = "" ->
      resolveCoordinates random loc n
      = (Some (Pair (730071 # 10000) (190754 # 10000)), n))
  /\ (loc = " " ->
      resolveCoordinates random loc n
      = (Some (Pair (730071 # 10000) (191050 # 10000)), n))
  /\ (loc <> "" -> loc <> " " ->
      resolveCoordinates random loc n = fallbackCoordinates random n).
Proof.
  intros W. split; [now apply getProperty_whiteSpace|].
  split; [intros ->; reflexivity|].
  split; [intros ->; reflexivity|].
  intros N0 N1. unfold resolveCoordinates.
  rewrite (getProperty_whiteSpace _ W).
  now rewrite (whiteSpace_no_partialMatch _ W N0 N1).
Qed.

End Random.

(** C2 (counterexample).  The empty location is white space only, and
    the resolver gives it the coordinate of Vashi without drawing, not
    the fallback. *)
Lemma empty_location_resolves_to_Vashi :
  allWhiteSpace "" = true
  /\ resolveCoordinates (fun _ => 1 # 2) "" 0
     = (Some (Pair (730071 # 10000) (190754 # 10000)), 0%nat)
  /\ ownProperty locationCoordinates "Vashi"
     = Some (730071 # 10000, 190754 # 10000)
  /\ resolveCoordinates (fun _ => 1 # 2) "" 0
     <> fallbackCoordinates (fun _ => 1 # 2) 0.
Proof.
  repeat split; try reflexivity.
  vm_compute. intros H. inversion H.
Qed.

(** Two spaces: white space that takes the fallback. *)
Lemma whiteSpace_resolution_witness :
  resolveCoordinates (fun _ => 1 # 2) "  " 0
  = fallbackCoordinates (fun _ => 1 # 2) 0.
Proof.
  apply (whiteSpace_resolution (fun _ => 1 # 2) "  " 0).
  - reflexivity.
  - discriminate.
  - discriminate.
Defined.

End ResolverFacts.

(** ** Marker construction *)

Module MarkerFacts.

Import ItineraryMap ResolverFacts.

Section Random.

Variable random : nat -> Q.

(** The variable [coordinates] is never [undefined] after lines
    181-200, so the guard of line 202 never returns. *)
Lemma resolve_defined (loc : string) (n : nat) :
  exists c, fst (resolveCoordinates random loc n) = Some c.
Proof.
  unfold resolveCoordinates.
  destruct (getProperty locationCoordinates loc) as [v|]; [now exists v|].
  destruct (find (partialMatch loc) (keys locationCoordinates)) as [key|] eqn:F.
  - apply find_some in F as [Hin _].
    rewrite (keys_truthy _ Hin). unfold getProperty.
    destruct (ownProperty_keys _ _ Hin) as [[lon lat] E]. rewrite E.
    now eexists.
  - unfold fallbackCoordinates, randomOffset. now eexists.
Qed.

Lemma forEachActivity_coloured (d : ItineraryDay)
      (acts : list ItineraryActivity) (b : Build) :
  Forall coloured (markers b) ->
  Forall coloured
         (placed (forEachActivity random d (dayColor (day d)) acts b)).
Proof.
  revert b. induction acts as [|a acts IH]; intros b Hb; [exact Hb|].
  simpl.
  destruct (resolveCoordinates random (location a) (draws b)) as [[c|] n].
  - destruct c as [lon lat|name]; simpl.
    + apply IH. simpl. apply Forall_app. split; [exact Hb|].
      constructor; [|constructor]. split; reflexivity.
    + exact Hb.
  - apply IH. exact Hb.
Qed.

Lemma forEachDay_coloured (itinerary : list ItineraryDay) (b : Build) :
  Forall coloured (markers b) ->
  Forall coloured (placed (forEachDay random itinerary b)).
Proof.
  revert b. induction itinerary as [|d rest IH]; intros b Hb; [exact Hb|].
  simpl.
  pose proof (forEachActivity_coloured d (activities d) b Hb) as H.
  destruct (forEachActivity random d (dayColor (day d)) (activities d) b)
    as [[msg b']|b'].
  - exact H.
  - apply IH. exact H.
Qed.

(** When no exception leaves the loop, every activity has its marker,
    in the order of the itinerary. *)
Lemma forEachActivity_complete (d : ItineraryDay) (color : option string)
      (acts : list ItineraryActivity) (b b' : Build) :
  forEachActivity random d color acts b = inr b' ->
  map (fun m => (iconLabel m, iconColor m, popupLocation m)) (markers b')
  = (map (fun m => (iconLabel m, iconColor m, popupLocation m)) (markers b)
     ++ map (fun a => (day d, color, location a)) acts)%list.
Proof.
  revert b. induction acts as [|a acts IH]; intros b; simpl.
  - intros [= <-]. now rewrite app_nil_r.
  - pose proof (resolve_defined (location a) (draws b)) as [c Hc].
    destruct (resolveCoordinates random (location a) (draws b)) as [o n].
    simpl in Hc. subst o.
    destruct c as [lon lat|name]; simpl; [|discriminate].
    intros H. rewrite (IH _ H). simpl.
    rewrite map_app, <- app_assoc. reflexivity.
Qed.

Lemma forEachDay_complete (itinerary : list ItineraryDay) (b b' : Build) :
  forEachDay random itinerary b = inr b' ->
  map (fun m => (iconLabel m, iconColor m, popupLocation m)) (markers b')
  = (map (fun m => (iconLabel m, iconColor m, popupLocation m)) (markers b)
     ++ flat_map (fun d => map (fun a => (day d, dayColor (day d), location a))
                               (activities d))
                 itinerary)%list.
Proof.
  revert b. induction itinerary as [|d rest IH]; intros b; simpl.
  - intros [= <-]. now rewrite app_nil_r.
  - destruct (forEachActivity random d (dayColor (day d)) (activities d) b)
      as [[msg b1]|b1] eqn:E; [discriminate|].
    intros H. rewrite (IH _ H), (forEachActivity_complete _ _ _ _ _ E).
    now rewrite <- app_assoc.
Qed.

Lemma dayColor_positive (d : Z) :
  (0 < d)%Z ->
  dayColor d = nth_error dayColors (Z.to_nat ((d - 1) mod 7)).
Proof.
  intros H. unfold dayColor, arrayGet.
  change (Z.of_nat (List.length dayColors)) with 7%Z.
  rewrite Z.rem_mod_nonneg by lia.
  pose proof (Z.mod_pos_bound (d - 1) 7 ltac:(lia)) as B.
  destruct (Z.ltb_spec ((d - 1) mod 7) 0); [lia|reflexivity].
Qed.

(** C4.  For a day with positive number [d], the colour is the entry
    [(d - 1) mod 7] of the palette of seven, which exists; day 1 gets
    the first entry and day 8 the same one; every marker the loops
    place carries the colour of the day it is labelled with, and when
    the loops complete there is one marker per activity, in itinerary
    order, with the colour of its day. *)
Theorem marker_colour_by_day (d : Z) :
  (0 < d)%Z ->
  List.length dayColors = 7%nat
  /\ dayColor d = nth_error dayColors (Z.to_nat ((d - 1) mod 7))
  /\ (exists c, dayColor d = Some c)
  /\ dayColor 1 = nth_error dayColors 0
  /\ dayColor 8 = nth_error dayColors 0
  /\ (forall itinerary n m,
         In m (placed (forEachDay random itinerary
                                  {| markers := []; draws := n |})) ->
         iconLabel m = d -> iconColor m = dayColor d)
  /\ (forall itinerary n b',
         forEachDay random itinerary {| markers := []; draws := n |} = inr b' ->
         map (fun m => (iconLabel m, iconColor m, popupLocation m)) (markers b')
         = flat_map (fun x => map (fun a => (day x, dayColor (day x), location a))
                                  (activities x))
                    itinerary).
Proof.
  intros H. split; [reflexivity|].
  split; [now apply dayColor_positive|].
  split.
  { rewrite (dayColor_positive d H).
    pose proof (Z.mod_pos_bound (d - 1) 7 ltac:(lia)) as B.
    assert (Z.to_nat ((d - 1) mod 7) < 7)%nat as L by lia.
    destruct (Z.to_nat ((d - 1) mod 7)) as [|[|[|[|[|[|[|k]]]]]]];
      simpl; try (now eexists); lia. }
  split; [reflexivity|]. split; [reflexivity|]. split.
  - intros itinerary n m Hin Hd.
    pose proof (forEachDay_coloured itinerary {| markers := []; draws := n |}
                                    (Forall_nil _)) as F.
    rewrite Forall_forall in F. destruct (F m Hin) as [Hc _].
    now rewrite Hc, Hd.
  - intros itinerary n b' E.
    now rewrite (forEachDay_complete _ _ _ E).
Qed.

End Random.

Lemma marker_colour_by_day_witness :
  dayColor 8 = nth_error dayColors (Z.to_nat ((8 - 1) mod 7)).
Proof.
  apply (marker_colour_by_day (fun _ => 0) 8). reflexivity.
Defined.

End MarkerFacts.

(** ** Life cycle of the map instance *)

Module LifecycleFacts.

Import ItineraryMap.

Section Random.

Variable random : nat -> Q.

Lemma owned_initial : owned initial.
Proof. split; [reflexivity|constructor]. Qed.

Lemma disposeMap_live (s : Component) :
  owned s -> liveMaps (disposeMap s) = [] /\ mapInstance (disposeMap s) = None.
Proof.
  intros [H _]. unfold disposeMap.
  destruct (mapInstance s) as [i|] eqn:E; simpl.
  - destruct (liveMaps s) as [|m [|m' l]]; try discriminate.
    injection H as H. simpl. now rewrite H, Nat.eqb_refl.
  - rewrite E. destruct (liveMaps s); [auto|discriminate].
Qed.

Lemma disposeMap_owned (s : Component) : owned s -> owned (disposeMap s).
Proof.
  intros H. destruct (disposeMap_live s H) as [L I].
  split; rewrite L; [now rewrite I|constructor].
Qed.

Lemma disposeMap_nextMapId (s : Component) :
  nextMapId (disposeMap s) = nextMapId s.
Proof. unfold disposeMap. now destruct (mapInstance s). Qed.

Lemma setTimer_owned (t : option (list ItineraryDay)) (s : Component) :
  owned s -> owned (setTimer t s).
Proof. intros H. exact H. Qed.

Lemma setError_owned (e : option string) (s : Component) :
  owned s -> owned (setError e s).
Proof. intros H. exact H. Qed.

Lemma initializeMap_owned (createThrows : option string)
      (itinerary : list ItineraryDay) (s : Component) :
  liveMaps s = [] -> mapInstance s = None ->
  owned (initializeMap random createThrows itinerary s).
Proof.
  intros L I. unfold initializeMap.
  destruct createThrows as [msg|].
  - split; simpl; rewrite L; [now rewrite I|constructor].
  - split; simpl; rewrite L; simpl; [reflexivity|].
    constructor; [simpl; lia|constructor].
Qed.

Lemma timerCallback_owned (containerPresent : bool)
      (createThrows : option string) (itinerary : list ItineraryDay)
      (s : Component) :
  owned s -> owned (timerCallback random containerPresent createThrows itinerary s).
Proof.
  intros H. unfold timerCallback.
  destruct containerPresent; simpl; [|exact H].
  destruct (disposeMap_live s H) as [L I].
  now apply initializeMap_owned.
Qed.

Lemma initEffect_owned (open : bool) (itinerary : list ItineraryDay)
      (s : Component) :
  owned s -> owned (initEffect open itinerary s).
Proof.
  intros H. unfold initEffect.
  destruct (negb open || negb (leafletLoaded s)); exact H.
Qed.

Lemma closeEffect_owned (open : bool) (s : Component) :
  owned s -> owned (closeEffect open s).
Proof.
  intros H. unfold closeEffect.
  destruct open; simpl; [exact H|now apply disposeMap_owned].
Qed.

Lemma step_owned (s : Component) (e : Event) :
  owned s -> owned (step random s e).
Proof.
  intros H. destruct e as [open itinerary| |cp ct|]; simpl.
  - destruct (mounted s); [|exact H].
    assert (owned (initEffect open itinerary (setTimer None s))) as H1
        by now apply initEffect_owned, setTimer_owned.
    destruct (negb (rendered s) || negb (Bool.eqb open (isOpen s))).
    + apply (closeEffect_owned open) in H1. exact H1.
    + exact H1.
  - exact H.
  - destruct (timer s) as [itinerary|]; [|exact H].
    now apply timerCallback_owned, setTimer_owned.
  - destruct (mounted s); [|exact H].
    apply (disposeMap_owned (setTimer None s)). exact H.
Qed.

Lemma run_owned (events : list Event) : owned (run random events).
Proof.
  unfold run. generalize owned_initial. generalize initial.
  induction events as [|e events IH]; intros s H; [exact H|].
  simpl. apply IH. now apply step_owned.
Qed.

Lemma owned_at_most_one (s : Component) :
  owned s -> (List.length (liveMaps s) <= 1)%nat.
Proof.
  intros [H _].
  rewrite <- (length_map mapId), H. destruct (mapInstance s); simpl; lia.
Qed.

(** C9.  After any sequence of renders, script loads, timer firings
    and unmounting, at most one Leaflet map is live, and it is the one
    the reference cell holds.  The timer callback creates its map in a
    state where the previous one has been removed: what is live after
    it is the new map alone, under a fresh identifier.  In particular
    closing and reopening the dialog, then letting the timer fire,
    leaves at most one live map. *)
Theorem at_most_one_live_map (events : list Event) :
  let s := run random events in
  (List.length (liveMaps s) <= 1)%nat
  /\ map mapId (liveMaps s)
     = match mapInstance s with Some i => [i] | None => [] end
  /\ liveMaps (disposeMap s) = []
  /\ (forall itinerary,
         exists view,
           liveMaps (timerCallback random true None itinerary (setTimer None s))
           = [view]
           /\ mapId view = nextMapId s
           /\ Forall (fun m => mapId m <> mapId view) (liveMaps s))
  /\ (forall it1 it2 cp ct,
         (List.length
            (liveMaps (run random
                           (events ++ [Render false it1; Render true it2;
                                       TimerFires cp ct])))
          <= 1)%nat).
Proof.
  intros s. pose proof (run_owned events) as H. fold s in H.
  split; [now apply owned_at_most_one|].
  split; [exact (proj1 H)|].
  split; [exact (proj1 (disposeMap_live s H))|].
  split.
  - intros itinerary. unfold timerCallback. simpl.
    destruct (disposeMap_live (setTimer None s) H) as [L I].
    unfold initializeMap. rewrite L. simpl. eexists. split; [reflexivity|].
    simpl. rewrite disposeMap_nextMapId. simpl. split; [reflexivity|].
    destruct H as [_ F]. revert F. apply Forall_impl. intros m. lia.
  - intros it1 it2 cp ct. apply owned_at_most_one, run_owned.
Qed.

End Random.

End LifecycleFacts.

(** ** The weather widget *)

Module WeatherFacts.

Import Weather.

(** C7.  An integer condition code gets the icon of exactly one
    category, by range: 200-299 thunderstorm, 300-399 drizzle, 500-599
    rain, 600-699 snow, 700-799 atmosphere, 800 clear, above 800 clouds.
    (Codes below 200 and from 400 to 499 get the plain cloud.) *)
Theorem icon_category_by_range (weatherId : Z) :
  let c := category (component (getWeatherIcon weatherId)) in
  ((200 <= weatherId <= 299)%Z -> c = Thunderstorm)
  /\ ((300 <= weatherId <= 399)%Z -> c = Drizzle)
  /\ ((500 <= weatherId <= 599)%Z -> c = Rain)
  /\ ((600 <= weatherId <= 699)%Z -> c = Snow)
  /\ ((700 <= weatherId <= 799)%Z -> c = Atmosphere)
  /\ (weatherId = 800%Z -> c = Clear)
  /\ ((800 < weatherId)%Z -> c = Clouds)
  /\ ((weatherId < 200 \/ 400 <= weatherId <= 499)%Z -> c = Unclassified).
Proof.
  unfold getWeatherIcon.
  repeat match goal with
         | |- context [(?a <=? ?b)%Z] => destruct (Z.leb_spec a b)
         | |- context [(?a <? ?b)%Z] => destruct (Z.ltb_spec a b)
         | |- context [(?a =? ?b)%Z] => destruct (Z.eqb_spec a b)
         end; simpl; repeat split; intros; try reflexivity; lia.
Qed.

Lemma icon_category_by_range_witness :
  category (component (getWeatherIcon 250)) = Thunderstorm.
Proof.
  apply (icon_category_by_range 250). lia.
Defined.

(** C8.  When the fetch fails, the effect ends with the placeholder
    reading (Unknown, 25, 60, 10) in the weather cell, the error
    message set, loading switched off and one destructive toast added;
    a rejected fetch and a response that is not ok are such failures.
    The result is a state: no exception leaves [fetchWeatherData]. *)
Theorem fetch_failure_placeholder (location : string) (r : FetchOutcome)
        (s : State) :
  failed location r (setError None (setLoading true s)) = true ->
  let s' := effect location r s in
  weather s' = Some placeholder
  /\ condition placeholder = "Unknown"
  /\ temperature placeholder = 25
  /\ humidity placeholder = 60
  /\ windSpeed placeholder = 10
  /\ error s' = Some ("Could not fetch weather data for " ++ location)
  /\ loading s' = false
  /\ toasts s'
     = (toasts s
        ++ [ {| toastTitle := "Weather data error";
                toastDescription :=
                  "Could not load weather for " ++ location
                  ++ ". Using default data.";
                toastVariant := "destructive" |} ])%list
  /\ (forall reason s0, failed location (Rejected reason) s0 = true)
  /\ (forall body s0, failed location (Response false body) s0 = true).
Proof.
  unfold failed, effect, fetchWeatherData. intros H.
  destruct (tryBlock location r (setError None (setLoading true s)))
    as [e|s1]; [|discriminate].
  cbn. repeat split; reflexivity.
Qed.

Lemma fetch_failure_placeholder_witness :
  weather (effect "Vashi" (Response false None)
                  {| weather := None; loading := true; error := None;
                     toasts := [] |})
  = Some placeholder.
Proof.
  apply (fetch_failure_placeholder "Vashi" (Response false None)).
  reflexivity.
Defined.

End WeatherFacts.

(** ** The itinerary hook *)

Module UseItineraryFacts.

Import ItineraryMap UseItinerary.

(** *** Pagination *)

Lemma Qceiling_unique (x : Q) (z : Z) :
  inject_Z (z - 1) < x -> x <= inject_Z z -> Qceiling x = z.
Proof.
  intros L U.
  pose proof (Qceiling_lt x) as L'. pose proof (Qle_ceiling x) as U'.
  assert (inject_Z (z - 1) < inject_Z (Qceiling x)) as A
      by (eapply Qlt_le_trans; eauto).
  assert (inject_Z (Qceiling x - 1) < inject_Z z) as B
      by (eapply Qlt_le_trans; eauto).
  rewrite <- Zlt_Qlt in A, B. lia.
Qed.

Lemma Qceiling_pred (x : Q) : Qceiling (x - 1) = (Qceiling x - 1)%Z.
Proof.
  pose proof (Qceiling_lt x) as L. pose proof (Qle_ceiling x) as U.
  apply Qceiling_unique.
  - unfold Z.sub in *. rewrite !inject_Z_plus in *.
    change (inject_Z (- (1))) with (- (1)) in *. lra.
  - unfold Z.sub. rewrite inject_Z_plus.
    change (inject_Z (- (1))) with (- (1)). lra.
Qed.

Lemma addPages_unfold (imgHeight heightLeft : Q) (pdf : Pdf) :
  addPages imgHeight heightLeft pdf
  = if Qlt_le_dec 0 heightLeft
    then addPages imgHeight (heightLeft - pageHeight)
                  (draw (Image 0 (0 - (pageHeight - 30)) imgWidth imgHeight)
                        (addPage pdf))
    else pdf.
Proof.
  rewrite addPages_equation_1. unfold addPages_clause_1.
  destruct (Qlt_le_dec 0 heightLeft); reflexivity.
Qed.

Lemma draw_addPage (o : Op) (pdf : Pdf) :
  draw o (addPage pdf) = (pdf ++ [[o]])%list.
Proof.
  unfold draw, addPage. rewrite rev_app_distr. simpl.
  now rewrite rev_involutive.
Qed.

Lemma draw_newPdf (o : Op) : draw o newPdf = [[o]].
Proof. reflexivity. Qed.

(** The number of turns of the loop. *)
Lemma overflow_turns (heightLeft : Q) :
  (0 < heightLeft ->
   Z.to_nat (Qceiling (heightLeft / pageHeight))
   = S (Z.to_nat (Qceiling ((heightLeft - pageHeight) / pageHeight))))
  /\ (heightLeft <= 0 -> Z.to_nat (Qceiling (heightLeft / pageHeight)) = 0%nat).
Proof.
  unfold pageHeight. split; intros H.
  - assert ((heightLeft - 295) / 295 == heightLeft / 295 - 1) as E by (field).
    rewrite (Qceiling_comp _ _ E), Qceiling_pred.
    assert (0 < Qceiling (heightLeft / 295))%Z as P.
    { rewrite Zlt_Qlt. eapply Qlt_le_trans; [|apply Qle_ceiling].
      change (inject_Z 0) with 0. apply Qlt_shift_div_l; lra. }
    lia.
  - assert (Qceiling (heightLeft / 295) <= 0)%Z as P.
    { rewrite <- (Qceiling_Z 0). apply Qceiling_resp_le.
      change (inject_Z 0) with 0. apply Qle_shift_div_r; lra. }
    lia.
Qed.

Lemma addPages_result (imgHeight : Q) (k : nat) :
  forall heightLeft pdf,
    Z.to_nat (Qceiling (heightLeft / pageHeight)) = k ->
    addPages imgHeight heightLeft pdf
    = (pdf ++ repeat [Image 0 (0 - (pageHeight - 30)) imgWidth imgHeight] k)%list.
Proof.
  induction k as [|k IH]; intros heightLeft pdf E;
    rewrite addPages_unfold; destruct (Qlt_le_dec 0 heightLeft) as [P|N].
  - rewrite (proj1 (overflow_turns heightLeft) P) in E. discriminate.
  - simpl. now rewrite app_nil_r.
  - rewrite (proj1 (overflow_turns heightLeft) P) in E. injection E as E.
    rewrite (IH _ _ E), draw_addPage, <- app_assoc. reflexivity.
  - rewrite (proj2 (overflow_turns heightLeft) N) in E. discriminate.
Qed.

Lemma paginate_result (imgHeight : Q) :
  paginate imgHeight newPdf
  = [Image 0 30 imgWidth imgHeight]
    :: repeat [Image 0 (0 - (pageHeight - 30)) imgWidth imgHeight]
              (Z.to_nat (Qceiling ((imgHeight - (pageHeight - 30)) / pageHeight))).
Proof.
  unfold paginate. rewrite draw_newPdf.
  now rewrite (addPages_result imgHeight _ _ _ eq_refl).
Qed.

(** C5.  An image of height 265 gives one page and one of height 561
    gives three (also through [document], for canvases of 210 by 265 and
    210 by 561 pixels).  After the image is placed on page 1 the loop
    starts from [imgHeight - (295 - 30)] and, while what is left is
    positive, adds a page and takes 295 off; the document has one page
    more than the number of turns. *)
Theorem paginate_page_count (imgHeight : Q) (pdf : Pdf) :
  List.length (paginate 265 newPdf) = 1%nat
  /\ List.length (paginate 561 newPdf) = 3%nat
  /\ List.length (document "1/1/2025" "Trip" 210 265) = 1%nat
  /\ List.length (document "1/1/2025" "Trip" 210 561) = 3%nat
  /\ paginate imgHeight pdf
     = addPages imgHeight (imgHeight - (pageHeight - 30))
                (draw (Image 0 30 imgWidth imgHeight) pdf)
  /\ (forall heightLeft p,
         addPages imgHeight heightLeft p
         = if Qlt_le_dec 0 heightLeft
           then addPages imgHeight (heightLeft - pageHeight)
                         (draw (Image 0 (0 - (pageHeight - 30)) imgWidth imgHeight)
                               (addPage p))
           else p)
  /\ List.length (paginate imgHeight newPdf)
     = S (Z.to_nat (Qceiling ((imgHeight - 265) / 295))).
Proof.
  split; [reflexivity|]. split; [reflexivity|].
  split; [reflexivity|]. split; [reflexivity|].
  split; [reflexivity|]. split; [intros; apply addPages_unfold|].
  rewrite paginate_result. simpl. rewrite repeat_length.
  reflexivity.
Qed.

(** C6 (failing input).  For an image of height 561 the two overflow
    pages both place the image at offset -265; the second one is not at
    -(295 - 30) * 2 = -530.  For every height, each overflow page has
    the offset -265, whatever its index. *)
Theorem overflow_offset_is_constant (imgHeight : Q) :
  imageOffsets (paginate 561 newPdf) = [[30]; [-265 # 1]; [-265 # 1]]
  /\ ~ (-265 # 1) == - (295 - 30) * 2
  /\ imageOffsets (paginate imgHeight newPdf)
     = [30] :: repeat [-265 # 1]
                      (Z.to_nat (Qceiling ((imgHeight - 265) / 295))).
Proof.
  split; [reflexivity|]. split; [intros H; discriminate H|].
  rewrite paginate_result.
  change (Z.to_nat (Qceiling ((imgHeight - 265) / 295)))
    with (Z.to_nat (Qceiling ((imgHeight - (pageHeight - 30)) / pageHeight))).
  generalize (Z.to_nat (Qceiling ((imgHeight - (pageHeight - 30)) / pageHeight))).
  intros k. unfold imageOffsets. simpl. f_equal.
  induction k as [|k IH]; [reflexivity|].
  simpl. now rewrite IH.
Qed.

(** *** Operations without a signed-in user *)

Section Backend.

Variable fault : Request -> option string.
Variable newId : list SavedItinerary -> string.
Variable now : string.

(** C10.  With no user, [deleteItinerary] returns [false] and
    [fetchItineraryById] returns [null], leaving everything as it was;
    [saveItinerary] and [updateItinerary] return [false] after a toast
    that asks to sign in.  No request reaches the backend, and the
    tables and the list of itineraries of the hook are unchanged. *)
Theorem signed_out_operations (itinerary : string) (data : ItineraryData)
        (days : list ItineraryDay) (w : World) :
  let saved := saveItinerary fault newId now None data days w in
  let updated := updateItinerary fault newId now None itinerary data days w in
  let untouched (w' : World) :=
    requests w' = requests w
    /\ user_itineraries w' = user_itineraries w
    /\ itinerary_activities w' = itinerary_activities w
    /\ itineraries w' = itineraries w
    /\ loading w' = loading w
    /\ error w' = error w in
  deleteItinerary fault newId now None itinerary w = (false, w)
  /\ fetchItineraryById fault newId now None itinerary w = (None, w)
  /\ fst saved = false
  /\ untouched (snd saved)
  /\ toasts (snd saved) = (toasts w ++ [authenticationRequired "save"])%list
  /\ fst updated = false
  /\ untouched (snd updated)
  /\ toasts (snd updated)
     = (toasts w ++ [authenticationRequired "update"])%list.
Proof.
  cbn. repeat split; reflexivity.
Qed.

End Backend.

End UseItineraryFacts.
